(** * neo4j_for_adk: the value normaliser and the query gateway

    A shallow embedding of [helpers/neo4j_for_adk.py]: the envelope helpers
    [tool_success] and [tool_error], the recursive converter [to_python],
    [result_to_adk], and the class [Neo4jForADK] ([__init__], [send_query]).

    The Neo4j driver is not part of the repository.  Its objects appear here
    through what the code observes of them (attributes read, methods called),
    and its calls are outcomes chosen by a [Driver] record, the way a test
    double would script them. *)

From Stdlib Require Import List String ZArith Bool Lia.
Import ListNotations.
Open Scope string_scope.
Open Scope list_scope.

(** ** Python values *)

(** The values [to_python] can meet.  A [dict] is the list of its items in
    insertion order; the keys of a Python dict are pairwise distinct
    ([distinct_keys] below), and graph maps have string keys.  A temporal
    object is represented by the string its conversion method returns
    ([iso_format()] for a [DateTime], [str()] for the others).  [VOther]
    stands for any object of a class the converter does not test for. *)
#[warnings="-register-all"]
Inductive object : Type :=
| VNone
| VBool (b : bool)
| VInt (z : Z)
| VFloat (bits : Z)
| VStr (s : string)
| VOther (repr : string)
| VTuple (xs : list object)
| VList (xs : list object)
| VDict (d : list (string * object))
| VRecord (items : list (string * object))
| VNode (n : Node)
| VRelationship (r : Relationship)
| VPath (nodes : list Node) (relationships : list Relationship)
| VDateTime (iso_format : string)
| VDate (str : string)
| VTime (str : string)
| VDuration (str : string)
with Node : Type :=
| mkNode (id : Z) (labels : list string) (properties : list (string * object))
with Relationship : Type :=
| mkRelationship (id : Z) (type : string) (start_node end_node : Node)
                 (properties : list (string * object)).

Definition Node_id (n : Node) : Z := let 'mkNode i _ _ := n in i.
Definition Node_labels (n : Node) : list string := let 'mkNode _ l _ := n in l.
Definition Node_items (n : Node) : list (string * object) :=
  let 'mkNode _ _ p := n in p.

Definition Relationship_id (r : Relationship) : Z :=
  let 'mkRelationship i _ _ _ _ := r in i.
Definition Relationship_type (r : Relationship) : string :=
  let 'mkRelationship _ t _ _ _ := r in t.
Definition Relationship_start_node (r : Relationship) : Node :=
  let 'mkRelationship _ _ s _ _ := r in s.
Definition Relationship_end_node (r : Relationship) : Node :=
  let 'mkRelationship _ _ _ e _ := r in e.
Definition Relationship_items (r : Relationship) : list (string * object) :=
  let 'mkRelationship _ _ _ _ p := r in p.

(** ** Dictionaries *)

Module Dict.

Definition t : Type := list (string * object).

Fixpoint get (k : string) (d : t) : option object :=
  match d with
  | [] => None
  | (k', v) :: d' => if String.eqb k k' then Some v else get k d'
  end.

(** [d[k] = v]: an existing key keeps its place and takes the new value, a
    new key goes to the end. *)
Fixpoint set (k : string) (v : object) (d : t) : t :=
  match d with
  | [] => [(k, v)]
  | (k', v') :: d' =>
      if String.eqb k k' then (k', v) :: d' else (k', v') :: set k v d'
  end.

Definition keys (d : t) : list string := map fst d.

Fixpoint distinct (ks : list string) : bool :=
  match ks with
  | [] => true
  | k :: ks' => negb (existsb (String.eqb k) ks') && distinct ks'
  end.

(** A dict display [{k1: v1, k2: v2, ...}] and a comprehension
    [{k: f(v) for k, v in items}] both store the items left to right. *)
Definition display (items : list (string * object)) : t :=
  fold_left (fun acc kv => set (fst kv) (snd kv) acc) items [].

Definition comprehension (f : object -> object)
           (items : list (string * object)) : t :=
  fold_left (fun acc kv => set (fst kv) (f (snd kv)) acc) items [].

End Dict.

Definition distinct_keys (d : list (string * object)) : bool :=
  Dict.distinct (Dict.keys d).

(** ** Envelope helpers *)

Definition tool_success (key : string) (result : object) : object :=
  VDict (Dict.display [("status", VStr "success"); (key, result)]).

Definition tool_error (message : string) : object :=
  VDict (Dict.display [("status", VStr "error");
                       ("error_message", VStr message)]).

(** ** The converter *)

(** [to_python], branch for branch.  [dict(value)] of a node or relationship
    is the dict of its property items, so [to_python(dict(value))] is the
    [dict] branch on them; [to_python(node)] on a path's node is the [Node]
    branch. *)
Fixpoint to_python (value : object) : object :=
  match value with
  | VRecord items => VDict (Dict.comprehension to_python items)
  | VDict d => VDict (Dict.comprehension to_python d)
  | VList xs => VList (map to_python xs)
  | VNode n => Node_to_python n
  | VRelationship r => Relationship_to_python r
  | VPath nodes relationships =>
      VDict (Dict.display
               [("nodes", VList (map Node_to_python nodes));
                ("relationships",
                 VList (map Relationship_to_python relationships))])
  | VDateTime iso => VStr iso
  | VDate s | VTime s | VDuration s => VStr s
  | _ => value
  end
with Node_to_python (n : Node) : object :=
  match n with
  | mkNode id labels properties =>
      VDict (Dict.display
               [("id", VInt id);
                ("labels", VList (map VStr labels));
                ("properties",
                 VDict (Dict.comprehension to_python properties))])
  end
with Relationship_to_python (r : Relationship) : object :=
  match r with
  | mkRelationship id type start_node end_node properties =>
      VDict (Dict.display
               [("id", VInt id);
                ("type", VStr type);
                ("start_node", VInt (Node_id start_node));
                ("end_node", VInt (Node_id end_node));
                ("properties",
                 VDict (Dict.comprehension to_python properties))])
  end.

(** The classes [to_python] tests with [isinstance], and the order of its
    [if]/[elif] chain; the last test is on a tuple of three classes. *)
Inductive class : Type :=
| Record_cls | dict_cls | list_cls | Node_cls | Relationship_cls | Path_cls
| DateTime_cls | Date_cls | Time_cls | Duration_cls.

Definition isinstance (value : object) (c : class) : bool :=
  match value, c with
  | VRecord _, Record_cls | VDict _, dict_cls | VList _, list_cls
  | VNode _, Node_cls | VRelationship _, Relationship_cls
  | VPath _ _, Path_cls | VDateTime _, DateTime_cls | VDate _, Date_cls
  | VTime _, Time_cls | VDuration _, Duration_cls => true
  | _, _ => false
  end.

Definition isinstance_any (value : object) (cs : list class) : bool :=
  existsb (isinstance value) cs.


(** Index of the first test of the chain that holds, if any. *)
Fixpoint first_match (value : object) (tests : list (list class)) (i : nat)
  : option nat :=
  match tests with
  | [] => None
  | cs :: tests' =>
      if isinstance_any value cs then Some i else first_match value tests' (S i)
  end.


(** The shapes the converter produces when nothing is left to convert. *)
Fixpoint normalized (value : object) : bool :=
  match value with
  | VNone | VBool _ | VInt _ | VFloat _ | VStr _ => true
  | VList xs => forallb normalized xs
  | VDict d => distinct_keys d && forallb (fun kv => normalized (snd kv)) d
  | _ => false
  end.

(** ** Exceptions and effects *)

(** A raised exception: whether its class derives from [Exception] (a
    [KeyboardInterrupt] or [SystemExit] does not) and what [str(e)] gives. *)
Record exn : Type := mkExn { is_Exception : bool; exn_str : string }.

Inductive outcome (A : Type) : Type :=
| Return (a : A)
| Raise (e : exn).
Arguments Return {A} a.
Arguments Raise {A} e.

(** What the gateway does to the driver, in the order it does it. *)
Inductive event : Type :=
| DriverRequested (uri : option string) (auth : string * option string)
| SessionAcquired
| QueryRun (query : string) (parameters : Dict.t) (database_ : string)
| ResultMaterialized
| SessionClosed.

Module Py.

(** Computations that log driver calls and may raise. *)
Definition M (A : Type) : Type := list event -> outcome A * list event.

Definition ret {A} (a : A) : M A := fun log => (Return a, log).

Definition raise {A} (e : exn) : M A := fun log => (Raise e, log).

Definition bind {A B} (m : M A) (k : A -> M B) : M B :=
  fun log =>
    match m log with
    | (Return a, log') => k a log'
    | (Raise e, log') => (Raise e, log')
    end.

Definition emit (ev : event) : M unit := fun log => (Return tt, (log ++ [ev])%list).

Definition lift {A} (o : outcome A) : M A := fun log => (o, log).

(** [try: body / except Exception as e: handler(e)] *)
Definition try_except {A} (body : M A) (handler : exn -> M A) : M A :=
  fun log =>
    match body log with
    | (Return a, log') => (Return a, log')
    | (Raise e, log') =>
        if is_Exception e then handler e log' else (Raise e, log')
    end.

(** [try: body / finally: final]: the final block always runs; when it
    raises, its exception replaces the outcome of the body. *)
Definition try_finally {A} (body : M A) (final : M unit) : M A :=
  fun log =>
    let '(o, log') := body log in
    match final log' with
    | (Return _, log'') => (o, log'')
    | (Raise e, log'') => (Raise e, log'')
    end.

End Py.

Notation "x <- m ;; k" := (Py.bind m (fun x => k))
  (at level 61, m at next level, right associativity).
Notation "m ;;; k" := (Py.bind m (fun _ => k))
  (at level 61, right associativity).

(** ** The driver, as the gateway sees it *)

(** A lazy [Result]: what materialising it will give. *)
Record Result : Type := mkResult { eager_records : outcome (list Dict.t) }.

(** One scripted behaviour of the driver: for each call the gateway makes,
    whether it returns or raises.  A record of a result is the list of its
    items; [Record_data] is its [data()] method. *)
Record Driver : Type := mkDriver {
  GraphDatabase_driver : option string -> string * option string -> option exn;
  driver_session : option exn;
  session_run : string -> Dict.t -> string -> outcome Result;
  Record_data : list (string * object) -> object;
  session_close : option exn
}.

Definition may_raise (r : option exn) : Py.M unit :=
  match r with
  | None => Py.ret tt
  | Some e => Py.raise e
  end.

(** ** The gateway *)

Definition getenv (env : string -> option string) (name : string)
  : option string := env name.

(** [a or b] on strings that may be [None]: the first operand when it is
    truthy (set and not empty), the second otherwise. *)
Definition truthy_str (a : option string) : bool :=
  match a with
  | Some s => negb (String.eqb s "")
  | None => false
  end.

Definition or_opt (a b : option string) : option string :=
  if truthy_str a then a else b.

Definition or_str (a : option string) (b : string) : string :=
  match or_opt a (Some b) with
  | Some s => s
  | None => b
  end.

(** The driver handle remembers what it was created from. *)
Record driver_handle : Type := mkHandle {
  handle_uri : option string;
  handle_auth : string * option string
}.

Record Neo4jForADK : Type := mkNeo4jForADK {
  database_name : string;
  _driver : driver_handle
}.

Section Gateway.

Variable drv : Driver.

Definition result_to_adk (result : Result) : Py.M object :=
  eager_result <- (Py.emit ResultMaterialized ;;;
                   Py.lift (eager_records result)) ;;
  let records :=
    map (fun record => to_python (Record_data drv record)) eager_result in
  Py.ret (tool_success "query_result" (VList records)).

Definition __init__ (env : string -> option string) : Py.M Neo4jForADK :=
  let neo4j_uri := getenv env "NEO4J_URI" in
  let neo4j_username := or_str (getenv env "NEO4J_USERNAME") "neo4j" in
  let neo4j_password := getenv env "NEO4J_PASSWORD" in
  let neo4j_database :=
    or_str (or_opt (getenv env "NEO4J_DATABASE")
                   (getenv env "NEO4J_USERNAME")) "neo4j" in
  Py.emit (DriverRequested neo4j_uri (neo4j_username, neo4j_password)) ;;;
  may_raise (GraphDatabase_driver drv neo4j_uri
                                  (neo4j_username, neo4j_password)) ;;;
  Py.ret {| database_name := neo4j_database;
            _driver := mkHandle neo4j_uri
                                (neo4j_username, neo4j_password) |}.

Definition get_driver (self : Neo4jForADK) : driver_handle := _driver self.

(** [parameters or {}] *)
Definition or_empty (parameters : option Dict.t) : Dict.t :=
  match parameters with
  | Some (kv :: d) => kv :: d
  | Some [] | None => []
  end.

Definition send_query (self : Neo4jForADK) (cypher_query : string)
           (parameters : option Dict.t) : Py.M object :=
  may_raise (driver_session drv) ;;;
  Py.emit SessionAcquired ;;;
  Py.try_finally
    (Py.try_except
       (result <- (Py.emit (QueryRun cypher_query (or_empty parameters)
                                     (database_name self)) ;;;
                   Py.lift (session_run drv cypher_query
                                        (or_empty parameters)
                                        (database_name self))) ;;
        result_to_adk result)
       (fun e => Py.ret (tool_error (exn_str e))))
    (Py.emit SessionClosed ;;; may_raise (session_close drv)).


End Gateway.

(** ** The driver's record export *)

(** [Record.data()] of the Neo4j driver, which [result_to_adk] calls on each
    record before [to_python]: it is [RecordExporter().transform] on the dict
    of the record's items.  The driver documents it: a node becomes the dict
    of its properties, a relationship the tuple (start node, type name, end
    node) with both nodes exported as nodes are, a path the list of its nodes
    with the type names of its relationships in between; sequences and
    mappings are exported element by element and every other object is left
    as it is.  A path holds one node more than it has relationships. *)
Fixpoint interleave (types nodes : list object) : list object :=
  match types, nodes with
  | t :: types', n :: nodes' => t :: n :: interleave types' nodes'
  | _, _ => []
  end.

Fixpoint RecordExporter_transform (x : object) : object :=
  match x with
  | VNode n => Node_export n
  | VRelationship r =>
      match r with
      | mkRelationship _ type start_node end_node _ =>
          VTuple [Node_export start_node; VStr type; Node_export end_node]
      end
  | VPath nodes relationships =>
      match map Node_export nodes with
      | [] => VList []
      | start :: rest =>
          VList (start ::
                 interleave
                   (map (fun r => VStr (Relationship_type r)) relationships)
                   rest)
      end
  | VTuple xs => VTuple (map RecordExporter_transform xs)
  | VList xs => VList (map RecordExporter_transform xs)
  | VDict d => VDict (Dict.comprehension RecordExporter_transform d)
  | _ => x
  end
with Node_export (n : Node) : object :=
  match n with
  | mkNode _ _ properties =>
      VDict (Dict.comprehension RecordExporter_transform properties)
  end.

Definition neo4j_Record_data (items : list (string * object)) : object :=
  RecordExporter_transform (VDict (Dict.display items)).

(** ** Scripted drivers *)

Module Script.

(** A server that answers every query with the given records. *)
Definition answering (records : list Dict.t) : Driver :=
  {| GraphDatabase_driver := fun _ _ => None;
     driver_session := None;
     session_run := fun _ _ _ => Return (mkResult (Return records));
     Record_data := neo4j_Record_data;
     session_close := None |}.

(** A server that rejects every query with the given message. *)
Definition rejecting (message : string) : Driver :=
  {| GraphDatabase_driver := fun _ _ => None;
     driver_session := None;
     session_run := fun _ _ _ => Raise (mkExn true message);
     Record_data := neo4j_Record_data;
     session_close := None |}.


(** The driver factory connects lazily: it rejects a missing URI and
    accepts any credentials, a missing password included. *)
Definition lazy : Driver :=
  {| GraphDatabase_driver := fun uri _ =>
       match uri with
       | None => Some (mkExn true "URI scheme '' is not supported")
       | Some _ => None
       end;
     driver_session := None;
     session_run := fun _ _ _ => Return (mkResult (Return []));
     Record_data := neo4j_Record_data;
     session_close := None |}.

Definition env_of (bindings : list (string * string)) (name : string)
  : option string :=
  option_map snd
    (find (fun kv => String.eqb name (fst kv)) bindings).

Definition graphdb : Neo4jForADK :=
  {| database_name := "neo4j";
     _driver := mkHandle (Some "bolt://localhost:7687")
                         ("neo4j", Some "secret") |}.

Definition ann : Node := mkNode 5 ["Person"] [("name", VStr "Ann")].
Definition bob : Node := mkNode 6 ["Person"] [("name", VStr "Bob")].
Definition knows : Relationship := mkRelationship 9 "KNOWS" ann bob [].

End Script.

(** ** Envelope shapes *)

Definition envelope_get (key : string) (envelope : object) : option object :=
  match envelope with
  | VDict d => Dict.get key d
  | _ => None
  end.

Definition envelope_has (key : string) (envelope : object) : bool :=
  match envelope_get key envelope with Some _ => true | None => false end.

Definition success_envelope (key : string) (envelope : object) : Prop :=
  envelope_get "status" envelope = Some (VStr "success") /\
  envelope_has key envelope = true /\
  envelope_has "error_message" envelope = false.

Definition error_envelope (key : string) (envelope : object) : Prop :=
  envelope_get "status" envelope = Some (VStr "error") /\
  envelope_has "error_message" envelope = true /\
  envelope_has key envelope = false.

Fixpoint count_event (p : event -> bool) (log : list event) : nat :=
  match log with
  | [] => 0
  | ev :: log' => (if p ev then 1 else 0) + count_event p log'
  end.

Definition is_SessionAcquired (ev : event) : bool :=
  match ev with SessionAcquired => true | _ => false end.

Definition is_SessionClosed (ev : event) : bool :=
  match ev with SessionClosed => true | _ => false end.

(** Sessions a call acquires: one, unless the driver refuses. *)
Definition sessions_acquired (drv : Driver) : nat :=
  match driver_session drv with
  | None => 1
  | Some _ => 0
  end.

(** What the [try]/[except] part of [send_query] comes to. *)
Definition guarded_outcome (drv : Driver) (o : outcome Result)
  : outcome object :=
  match o with
  | Raise e =>
      if is_Exception e then Return (tool_error (exn_str e)) else Raise e
  | Return result =>
      match eager_records result with
      | Raise e =>
          if is_Exception e then Return (tool_error (exn_str e)) else Raise e
      | Return records =>
          Return (tool_success "query_result"
                    (VList (map (fun record =>
                                   to_python (Record_data drv record))
                                records)))
      end
  end.

(** The events of a call that got its session. *)
Definition session_events (drv : Driver) (self : Neo4jForADK)
           (cypher_query : string) (parameters : option Dict.t)
  : list event :=
  SessionAcquired
    :: QueryRun cypher_query (or_empty parameters) (database_name self)
    :: match session_run drv cypher_query (or_empty parameters)
                         (database_name self) with
       | Return _ => [ResultMaterialized; SessionClosed]
       | Raise _ => [SessionClosed]
       end.

(** ** What a conversion reaches *)

(** The property items [to_python] converts in a node and in a
    relationship: their own; of the two end nodes of a relationship only the
    [id] is read. *)
Definition Node_all (P : object -> Prop) (n : Node) : Prop :=
  Forall (fun kv => P (snd kv)) (Node_items n).

Definition Relationship_all (P : object -> Prop) (r : Relationship) : Prop :=
  Forall (fun kv => P (snd kv)) (Relationship_items r).

(** Values made only of what [to_python] has a branch for or of primitives,
    at every place it recurses into: no tuple and no object of an unknown
    class, which it would hand back untouched. *)
Fixpoint convertible (value : object) : bool :=
  match value with
  | VOther _ | VTuple _ => false
  | VList xs => forallb convertible xs
  | VDict d => forallb (fun kv => convertible (snd kv)) d
  | VRecord items => forallb (fun kv => convertible (snd kv)) items
  | VNode n => Node_convertible n
  | VRelationship r => Relationship_convertible r
  | VPath nodes relationships =>
      forallb Node_convertible nodes
      && forallb Relationship_convertible relationships
  | _ => true
  end
with Node_convertible (n : Node) : bool :=
  match n with
  | mkNode _ _ properties =>
      forallb (fun kv => convertible (snd kv)) properties
  end
with Relationship_convertible (r : Relationship) : bool :=
  match r with
  | mkRelationship _ _ _ _ properties =>
      forallb (fun kv => convertible (snd kv)) properties
  end.

Definition is_QueryRun (ev : event) : bool :=
  match ev with QueryRun _ _ _ => true | _ => false end.

Definition is_ResultMaterialized (ev : event) : bool :=
  match ev with ResultMaterialized => true | _ => false end.

Definition is_DriverRequested (ev : event) : bool :=
  match ev with DriverRequested _ _ => true | _ => false end.

(** ** Examples from the specification *)

Example node_normalization :
  to_python (VNode Script.ann)
  = VDict [("id", VInt 5); ("labels", VList [VStr "Person"]);
           ("properties", VDict [("name", VStr "Ann")])].
Proof. reflexivity. Qed.

Example relationship_normalization :
  to_python (VRelationship Script.knows)
  = VDict [("id", VInt 9); ("type", VStr "KNOWS"); ("start_node", VInt 5);
           ("end_node", VInt 6); ("properties", VDict [])].
Proof. reflexivity. Qed.

Example path_normalization :
  to_python (VPath [Script.ann; Script.bob] [Script.knows])
  = VDict [("nodes", VList [to_python (VNode Script.ann);
                            to_python (VNode Script.bob)]);
           ("relationships", VList [to_python (VRelationship Script.knows)])].
Proof. reflexivity. Qed.

Example successful_query :
  fst (send_query (Script.answering [[("x", VInt 1)]]) Script.graphdb
                  "RETURN 1 AS x" None [])
  = Return (VDict [("status", VStr "success");
                   ("query_result", VList [VDict [("x", VInt 1)]])]).
Proof. reflexivity. Qed.

Example failing_query :
  fst (send_query (Script.rejecting "Invalid input") Script.graphdb
                  "INVALID SYNTAX" None [])
  = Return (VDict [("status", VStr "error");
                   ("error_message", VStr "Invalid input")]).
Proof. reflexivity. Qed.

(** ** Dictionary lemmas *)

Section DictFacts.

Lemma set_absent k v (d : Dict.t) :
  existsb (String.eqb k) (Dict.keys d) = false ->
  Dict.set k v d = (d ++ [(k, v)])%list.
Proof.
  induction d as [|[k' v'] d IH]; simpl; intros H; [reflexivity|].
  apply orb_false_iff in H. destruct H as [Hk Hd].
  rewrite Hk. now rewrite IH.
Qed.

Lemma existsb_keys_app k (d1 d2 : Dict.t) :
  existsb (String.eqb k) (Dict.keys (d1 ++ d2))
  = existsb (String.eqb k) (Dict.keys d1)
    || existsb (String.eqb k) (Dict.keys d2).
Proof.
  unfold Dict.keys. now rewrite map_app, existsb_app.
Qed.

Lemma distinct_app_cons k (ks1 ks2 : list string) :
  Dict.distinct (ks1 ++ k :: ks2) = true ->
  existsb (String.eqb k) ks1 = false /\
  Dict.distinct ((ks1 ++ [k]) ++ ks2) = true.
Proof.
  rewrite <- app_assoc. simpl. intros H. split; [|exact H].
  induction ks1 as [|a ks1 IH]; simpl in *; [reflexivity|].
  apply andb_true_iff in H. destruct H as [Ha H].
  rewrite (IH H), orb_false_r.
  apply negb_true_iff in Ha. rewrite existsb_app in Ha. simpl in Ha.
  apply orb_false_iff in Ha. destruct Ha as [_ Ha].
  apply orb_false_iff in Ha. destruct Ha as [Ha _].
  now rewrite String.eqb_sym.
Qed.

(** On items with distinct keys, and from a dict sharing none of them, a
    comprehension stores one entry per item, in order. *)
Lemma fold_set_distinct (f : object -> object) (items acc : Dict.t) :
  Dict.distinct (Dict.keys acc ++ Dict.keys items) = true ->
  fold_left (fun a kv => Dict.set (fst kv) (f (snd kv)) a) items acc
  = (acc ++ map (fun kv => (fst kv, f (snd kv))) items)%list.
Proof.
  revert acc. induction items as [|[k v] items IH]; intros acc H; simpl.
  - now rewrite app_nil_r.
  - simpl in H. apply distinct_app_cons in H. destruct H as [Hk H].
    rewrite set_absent by exact Hk.
    rewrite IH.
    + now rewrite <- app_assoc.
    + unfold Dict.keys in *. now rewrite map_app.
Qed.

Lemma comprehension_distinct (f : object -> object) (items : Dict.t) :
  distinct_keys items = true ->
  Dict.comprehension f items = map (fun kv => (fst kv, f (snd kv))) items.
Proof.
  intros H. unfold Dict.comprehension.
  now rewrite fold_set_distinct.
Qed.

Lemma comprehension_fixed (f : object -> object) (items : Dict.t) :
  distinct_keys items = true ->
  (forall kv, In kv items -> f (snd kv) = snd kv) ->
  Dict.comprehension f items = items.
Proof.
  intros Hd Hf. rewrite comprehension_distinct by exact Hd.
  induction items as [|[k v] items IH]; simpl; [reflexivity|].
  pose proof (Hf (k, v) (or_introl eq_refl)) as Hv. simpl in Hv.
  rewrite Hv. f_equal.
  apply IH.
  - unfold distinct_keys in *. simpl in Hd.
    apply andb_true_iff in Hd. tauto.
  - intros kv Hin. apply Hf. now right.
Qed.

End DictFacts.

(** ** The converter on converted values *)

(** Induction on lists and dicts of values; every other value is a leaf. *)
Lemma object_containers_ind (P : object -> Prop) :
  (forall xs, Forall P xs -> P (VList xs)) ->
  (forall d, Forall (fun kv => P (snd kv)) d -> P (VDict d)) ->
  (forall value,
      match value with VList _ | VDict _ => True | _ => P value end) ->
  forall value, P value.
Proof.
  intros HList HDict HLeaf.
  fix IH 1. intros value.
  destruct value as [ | | | | | | |xs|d| | | | | | | | ];
    try match goal with |- P ?x => exact (HLeaf x) end.
  - apply HList. induction xs as [|x xs IHxs]; constructor.
    + apply IH.
    + exact IHxs.
  - apply HDict. induction d as [|[k x] d IHd]; constructor.
    + simpl. apply IH.
    + exact IHd.
Qed.

Lemma to_python_normalized value :
  normalized value = true -> to_python value = value.
Proof.
  revert value.
  apply (object_containers_ind
           (fun value => normalized value = true -> to_python value = value));
    [intros xs IH|intros d IH|intros value].
  - simpl. intros H. f_equal.
    induction xs as [|x xs IHxs]; simpl; [reflexivity|].
    simpl in H. apply andb_true_iff in H. destruct H as [Hx Hxs].
    inversion IH as [|? ? Px Pxs]; subst.
    rewrite (Px Hx). f_equal. now apply IHxs.
  - simpl. intros H. apply andb_true_iff in H. destruct H as [Hd Hv].
    f_equal. apply comprehension_fixed; [exact Hd|].
    intros kv Hin. rewrite Forall_forall in IH. apply IH; [exact Hin|].
    rewrite forallb_forall in Hv. now apply Hv.
  - destruct value; simpl; try reflexivity; try discriminate; exact I.
Qed.

Lemma first_match_sound value tests i0 i :
  first_match value tests i0 = Some i ->
  (i0 <= i)%nat /\
  isinstance_any value (nth (i - i0) tests []) = true /\
  forall j, (j < i - i0)%nat -> isinstance_any value (nth j tests []) = false.
Proof.
  revert i0. induction tests as [|cs tests IH]; simpl; intros i0 H.
  - discriminate.
  - destruct (isinstance_any value cs) eqn:Hcs.
    + injection H as <-. rewrite Nat.sub_diag. repeat split; [lia|exact Hcs|].
      intros j Hj. lia.
    + apply IH in H. destruct H as (Hle & Hi & Hlt).
      replace (i - i0)%nat with (S (i - S i0)) by lia.
      repeat split; [lia|exact Hi|].
      intros [|j] Hj; [exact Hcs|]. apply Hlt. lia.
Qed.

(** ** The outcome and the log of a query *)

Section SendQueryFacts.

Variables (drv : Driver) (self : Neo4jForADK).
Variables (cypher_query : string) (parameters : option Dict.t).
Variable log : list event.

Local Abbreviation call :=
  (send_query drv self cypher_query parameters log).
Local Abbreviation run :=
  (session_run drv cypher_query (or_empty parameters) (database_name self)).

Lemma send_query_outcome :
  fst call
  = match driver_session drv with
    | Some e => Raise e
    | None =>
        match session_close drv with
        | Some e => Raise e
        | None => guarded_outcome drv run
        end
    end.
Proof.
  unfold send_query, result_to_adk, guarded_outcome, Py.try_finally,
    Py.try_except, Py.bind, Py.emit, Py.lift, Py.ret, may_raise, Py.raise.
  destruct (driver_session drv) as [e|]; [reflexivity|].
  destruct (session_run drv cypher_query (or_empty parameters)
              (database_name self)) as [result|e].
  - destruct (eager_records result) as [records|e].
    + destruct (session_close drv); reflexivity.
    + destruct (is_Exception e); destruct (session_close drv); reflexivity.
  - destruct (is_Exception e); destruct (session_close drv); reflexivity.
Qed.

Lemma send_query_log :
  snd call
  = log ++ match driver_session drv with
           | Some _ => []
           | None => session_events drv self cypher_query parameters
           end.
Proof.
  unfold send_query, result_to_adk, session_events, Py.try_finally,
    Py.try_except, Py.bind, Py.emit, Py.lift, Py.ret, may_raise, Py.raise.
  destruct (driver_session drv) as [e|]; simpl; [now rewrite app_nil_r|].
  destruct (session_run drv cypher_query (or_empty parameters)
              (database_name self)) as [result|e]; simpl.
  - destruct (eager_records result) as [records|e]; simpl.
    + destruct (session_close drv); simpl; now rewrite <- !app_assoc.
    + destruct (is_Exception e); destruct (session_close drv); simpl;
        now rewrite <- !app_assoc.
  - destruct (is_Exception e); destruct (session_close drv); simpl;
      now rewrite <- !app_assoc.
Qed.

End SendQueryFacts.

Lemma tool_success_items key result :
  key <> "status" ->
  tool_success key result = VDict [("status", VStr "success"); (key, result)].
Proof.
  intros H. apply String.eqb_neq in H.
  unfold tool_success, Dict.display. simpl. now rewrite H.
Qed.

Lemma tool_error_items message :
  tool_error message
  = VDict [("status", VStr "error"); ("error_message", VStr message)].
Proof. reflexivity. Qed.

Lemma success_envelope_tool_success key result :
  key <> "status" -> key <> "error_message" ->
  success_envelope key (tool_success key result).
Proof.
  intros Hs He. rewrite tool_success_items by exact Hs.
  assert (String.eqb "error_message" key = false) as He'.
  { apply String.eqb_neq. congruence. }
  apply String.eqb_neq in Hs.
  unfold success_envelope, envelope_has, envelope_get. cbn [Dict.get].
  rewrite Hs, He', !String.eqb_refl.
  repeat split.
Qed.

Lemma error_envelope_tool_error key message :
  key <> "status" -> key <> "error_message" ->
  error_envelope key (tool_error message).
Proof.
  intros Hs He. rewrite tool_error_items.
  apply String.eqb_neq in Hs, He.
  unfold error_envelope, envelope_has, envelope_get. cbn [Dict.get].
  rewrite Hs, He.
  repeat split.
Qed.

(** ** The value normaliser *)




(** C9: on a value that is already normalised (a primitive, or a list or
    dict of normalised values), converting twice gives what converting once
    gives. *)
Theorem to_python_idempotent (value : object) :
  normalized value = true ->
  to_python (to_python value) = to_python value.
Proof.
  intros H. now rewrite !(to_python_normalized value H).
Qed.

Lemma to_python_idempotent_witness :
  normalized (VDict [("name", VStr "Ann"); ("tags", VList [VInt 1; VNone])])
  = true /\
  to_python
    (to_python (VDict [("name", VStr "Ann"); ("tags", VList [VInt 1; VNone])]))
  = to_python (VDict [("name", VStr "Ann"); ("tags", VList [VInt 1; VNone])]).
Proof.
  split; [reflexivity|].
  apply (to_python_idempotent
           (VDict [("name", VStr "Ann"); ("tags", VList [VInt 1; VNone])])).
  reflexivity.
Defined.

(** ** Envelopes *)

(** C7, as stated, fails: [tool_success] stores the result under the key it
    is given, so the key ["status"] overwrites the status and the key
    ["error_message"] puts an error message into a success envelope. *)
Lemma tool_success_reserved_key :
  tool_success "status" (VInt 1) = VDict [("status", VInt 1)] /\
  ~ success_envelope "status" (tool_success "status" (VInt 1)) /\
  ~ success_envelope "error_message" (tool_success "error_message" (VInt 1)).
Proof.
  split; [reflexivity|]. split.
  - intros (Hstatus & _). discriminate Hstatus.
  - intros (_ & _ & Herr). discriminate Herr.
Qed.

(** C7, amended: for a payload key other than ["status"] and
    ["error_message"], [tool_success] gives a success envelope (status
    ["success"], the payload key, no [error_message]) and [tool_error] an
    error envelope (status ["error"], [error_message], no payload key); every
    envelope [send_query] returns is one of the two for ["query_result"]. *)
Theorem envelope_invariant (key : string) (result : object)
        (message : string) :
  key <> "status" -> key <> "error_message" ->
  success_envelope key (tool_success key result) /\
  error_envelope key (tool_error message) /\
  forall drv self cypher_query parameters log envelope,
    fst (send_query drv self cypher_query parameters log) = Return envelope ->
    success_envelope "query_result" envelope \/
    error_envelope "query_result" envelope.
Proof.
  intros Hs He. split; [now apply success_envelope_tool_success|].
  split; [now apply error_envelope_tool_error|].
  intros drv self q p log envelope. rewrite send_query_outcome.
  assert (forall m, error_envelope "query_result" (tool_error m)) as Herr.
  { intros m. apply error_envelope_tool_error; discriminate. }
  assert (forall r, success_envelope "query_result"
                      (tool_success "query_result" r)) as Hok.
  { intros r. apply success_envelope_tool_success; discriminate. }
  destruct (driver_session drv); [discriminate|].
  destruct (session_close drv); [discriminate|].
  unfold guarded_outcome.
  destruct (session_run drv q (or_empty p) (database_name self))
    as [res|e].
  - destruct (eager_records res) as [records|e].
    + intros [= <-]. left. apply Hok.
    + destruct (is_Exception e); [|discriminate].
      intros [= <-]. right. apply Herr.
  - destruct (is_Exception e); [|discriminate].
    intros [= <-]. right. apply Herr.
Qed.

Lemma envelope_invariant_witness :
  success_envelope "query_result" (tool_success "query_result" (VList [])) /\
  error_envelope "query_result" (tool_error "boom").
Proof.
  destruct (envelope_invariant "query_result" (VList []) "boom")
    as (Hs & He & _); [discriminate|discriminate|].
  split; [exact Hs|exact He].
Defined.

(** ** The query gateway *)







(** C4: whatever the driver does, a call closes as many sessions as it
    acquires: one of each when the driver hands out a session, none
    otherwise; and the close is the last thing the call does. *)
Theorem send_query_closes_session
        (drv : Driver) (self : Neo4jForADK) (cypher_query : string)
        (parameters : option Dict.t) (log : list event) :
  exists events,
    snd (send_query drv self cypher_query parameters log) = log ++ events /\
    count_event is_SessionAcquired events = sessions_acquired drv /\
    count_event is_SessionClosed events = sessions_acquired drv /\
    last events SessionClosed = SessionClosed.
Proof.
  rewrite send_query_log. unfold sessions_acquired, session_events.
  destruct (driver_session drv) as [e|].
  - exists []. repeat split.
  - eexists. split; [reflexivity|].
    destruct (session_run drv cypher_query (or_empty parameters)
                (database_name self)); repeat split.
Qed.


Lemma init_run (drv : Driver) (env : string -> option string)
      (log : list event) :
  let uri := env "NEO4J_URI" in
  let auth := (or_str (env "NEO4J_USERNAME") "neo4j", env "NEO4J_PASSWORD") in
  __init__ drv env log
  = (match GraphDatabase_driver drv uri auth with
     | Some e => Raise e
     | None =>
         Return {| database_name :=
                     or_str (or_opt (env "NEO4J_DATABASE")
                                    (env "NEO4J_USERNAME")) "neo4j";
                   _driver := mkHandle uri auth |}
     end,
     log ++ [DriverRequested uri auth]).
Proof.
  unfold __init__, Py.bind, Py.emit, Py.ret, may_raise, Py.raise, getenv.
  cbv zeta.
  now destruct (GraphDatabase_driver drv (env "NEO4J_URI")
                  (or_str (env "NEO4J_USERNAME") "neo4j",
                   env "NEO4J_PASSWORD")).
Qed.


(** C3, as stated, fails: [__init__] checks nothing itself and hands what it
    read to [GraphDatabase.driver], which builds the driver without
    connecting and takes a missing password as it comes; with the URI set
    and the password unset, construction returns an instance. *)
Lemma init_accepts_missing_password :
  getenv (Script.env_of [("NEO4J_URI", "bolt://localhost:7687")])
         "NEO4J_PASSWORD" = None /\
  fst (__init__ Script.lazy
                (Script.env_of [("NEO4J_URI", "bolt://localhost:7687")]) [])
  = Return {| database_name := "neo4j";
              _driver := mkHandle (Some "bolt://localhost:7687")
                                  ("neo4j", None) |}.
Proof. split; reflexivity. Qed.

(** C3, amended: [__init__] asks the driver factory for a driver exactly
    once, with the URI and the password as read from the environment (absent
    when unset); it raises exactly when the factory raises, with the
    factory's exception and without building an instance or an envelope, and
    returns an instance otherwise. *)
Theorem init_raises_with_driver_factory
        (drv : Driver) (env : string -> option string) (log : list event) :
  exists username,
    snd (__init__ drv env log)
    = log ++ [DriverRequested (env "NEO4J_URI")
                              (username, env "NEO4J_PASSWORD")] /\
    match GraphDatabase_driver drv (env "NEO4J_URI")
                               (username, env "NEO4J_PASSWORD") with
    | Some e => fst (__init__ drv env log) = Raise e
    | None => exists self, fst (__init__ drv env log) = Return self
    end.
Proof.
  exists (or_str (env "NEO4J_USERNAME") "neo4j").
  rewrite init_run. cbn [fst snd]. split; [reflexivity|].
  destruct (GraphDatabase_driver drv (env "NEO4J_URI")
              (or_str (env "NEO4J_USERNAME") "neo4j", env "NEO4J_PASSWORD"));
    [reflexivity|].
  eexists. reflexivity.
Qed.


(** ** More on dictionaries *)

Section DictStores.

Variable f : object -> object.

Local Abbreviation store :=
  (fun (acc : Dict.t) (kv : string * object) =>
     Dict.set (fst kv) (f (snd kv)) acc).

Lemma get_set k k0 v (d : Dict.t) :
  Dict.get k (Dict.set k0 v d)
  = if String.eqb k k0 then Some v else Dict.get k d.
Proof.
  induction d as [|[k' v'] d IH]; cbn [Dict.set Dict.get].
  - reflexivity.
  - destruct (String.eqb k0 k') eqn:H0; cbn [Dict.get].
    + apply String.eqb_eq in H0. subst k'.
      now destruct (String.eqb k k0).
    + rewrite IH. destruct (String.eqb k k0) eqn:Hk; [|reflexivity].
      apply String.eqb_eq in Hk. subst k. now rewrite H0.
Qed.

Lemma get_app k (d1 d2 : Dict.t) :
  Dict.get k (d1 ++ d2)
  = match Dict.get k d1 with
    | Some v => Some v
    | None => Dict.get k d2
    end.
Proof.
  induction d1 as [|[k' v'] d1 IH]; cbn [app Dict.get]; [reflexivity|].
  now destruct (String.eqb k k').
Qed.

(** The last item stored under a key is the one found. *)
Lemma get_fold_store k (items acc : Dict.t) :
  Dict.get k (fold_left store items acc)
  = match Dict.get k (rev items) with
    | Some v => Some (f v)
    | None => Dict.get k acc
    end.
Proof.
  revert acc. induction items as [|[k0 v0] items IH]; intros acc;
    cbn [fold_left rev Dict.get]; [reflexivity|].
  rewrite IH, get_app, get_set. cbn [fst snd Dict.get].
  destruct (Dict.get k (rev items)); [reflexivity|].
  now destruct (String.eqb k k0).
Qed.

Lemma keys_set k v (d : Dict.t) :
  Dict.keys (Dict.set k v d)
  = if existsb (String.eqb k) (Dict.keys d)
    then Dict.keys d
    else Dict.keys d ++ [k].
Proof.
  induction d as [|[k' v'] d IH]; cbn [Dict.set Dict.keys map existsb fst];
    [reflexivity|].
  destruct (String.eqb k k'); cbn [orb Dict.keys map fst]; [reflexivity|].
  unfold Dict.keys in IH. rewrite IH.
  now destruct (existsb (String.eqb k) (map fst d)).
Qed.

Lemma distinct_snoc k (ks : list string) :
  Dict.distinct ks = true ->
  existsb (String.eqb k) ks = false ->
  Dict.distinct (ks ++ [k]) = true.
Proof.
  induction ks as [|a ks IH]; cbn [app Dict.distinct existsb];
    intros Hd Hk; [reflexivity|].
  apply andb_true_iff in Hd. destruct Hd as [Ha Hd].
  apply orb_false_iff in Hk. destruct Hk as [Hka Hk].
  rewrite (IH Hd Hk), andb_true_r.
  rewrite existsb_app. cbn [existsb].
  apply negb_true_iff in Ha. rewrite Ha, String.eqb_sym, Hka.
  reflexivity.
Qed.

Lemma distinct_set k v (d : Dict.t) :
  distinct_keys d = true -> distinct_keys (Dict.set k v d) = true.
Proof.
  unfold distinct_keys. intros Hd. rewrite keys_set.
  destruct (existsb (String.eqb k) (Dict.keys d)) eqn:Hk; [exact Hd|].
  now apply distinct_snoc.
Qed.

Lemma distinct_fold_store (items acc : Dict.t) :
  distinct_keys acc = true ->
  distinct_keys (fold_left store items acc) = true.
Proof.
  revert acc. induction items as [|kv items IH]; intros acc Hd;
    cbn [fold_left]; [exact Hd|].
  apply IH. now apply distinct_set.
Qed.

Variable Q : object -> Prop.

Lemma Forall_set k v (d : Dict.t) :
  Forall (fun kv => Q (snd kv)) d -> Q v ->
  Forall (fun kv => Q (snd kv)) (Dict.set k v d).
Proof.
  intros Hd Hv. induction d as [|[k' v'] d IH]; cbn [Dict.set].
  - now constructor.
  - inversion Hd as [|? ? Hkv Hd']; subst.
    destruct (String.eqb k k'); constructor; auto.
Qed.

Lemma Forall_fold_store (items acc : Dict.t) :
  Forall (fun kv => Q (snd kv)) acc ->
  Forall (fun kv => Q (f (snd kv))) items ->
  Forall (fun kv => Q (snd kv)) (fold_left store items acc).
Proof.
  revert acc. induction items as [|kv items IH]; intros acc Hacc Hitems;
    cbn [fold_left]; [exact Hacc|].
  inversion Hitems as [|? ? Hkv Hitems']; subst.
  apply IH; [|exact Hitems']. now apply Forall_set.
Qed.

End DictStores.

Lemma comprehension_distinct_keys f (items : Dict.t) :
  distinct_keys (Dict.comprehension f items) = true.
Proof. now apply distinct_fold_store. Qed.

Lemma comprehension_Forall f (Q : object -> Prop) (items : Dict.t) :
  Forall (fun kv => Q (f (snd kv))) items ->
  Forall (fun kv => Q (snd kv)) (Dict.comprehension f items).
Proof. intros H. apply Forall_fold_store; [constructor|exact H]. Qed.

(** Storing converted values a second time changes nothing. *)
Lemma comprehension_twice f (items : Dict.t) :
  Forall (fun kv => f (f (snd kv)) = f (snd kv)) items ->
  Dict.comprehension f (Dict.comprehension f items)
  = Dict.comprehension f items.
Proof.
  intros H. apply comprehension_fixed.
  - apply comprehension_distinct_keys.
  - apply Forall_forall.
    now apply (comprehension_Forall f (fun v => f v = v)).
Qed.

Lemma get_map_values f k (d : Dict.t) :
  Dict.get k (map (fun kv => (fst kv, f (snd kv))) d)
  = option_map f (Dict.get k d).
Proof.
  induction d as [|[k' v'] d IH]; cbn [map Dict.get fst snd]; [reflexivity|].
  now destruct (String.eqb k k').
Qed.

(** ** The converter, through every branch *)

(** Induction along the recursion of [to_python]: into lists, dicts, records,
    the properties of nodes and relationships, and the nodes and
    relationships of paths.  A tuple is a leaf, as for the converter. *)
Lemma object_traversal_ind (P : object -> Prop) :
  (forall value,
      match value with
      | VList _ | VDict _ | VRecord _ | VNode _ | VRelationship _
      | VPath _ _ => True
      | _ => P value
      end) ->
  (forall xs, Forall P xs -> P (VList xs)) ->
  (forall d, Forall (fun kv => P (snd kv)) d -> P (VDict d)) ->
  (forall items, Forall (fun kv => P (snd kv)) items -> P (VRecord items)) ->
  (forall n, Node_all P n -> P (VNode n)) ->
  (forall r, Relationship_all P r -> P (VRelationship r)) ->
  (forall nodes relationships,
      Forall (Node_all P) nodes ->
      Forall (Relationship_all P) relationships ->
      P (VPath nodes relationships)) ->
  forall value, P value.
Proof.
  intros HLeaf HList HDict HRecord HNode HRel HPath.
  fix IH 1. intros value.
  assert (forall d : list (string * object),
             Forall (fun kv => P (snd kv)) d) as Hitems.
  { intros d. induction d as [|[k x] d IHd]; constructor;
      [apply IH|exact IHd]. }
  destruct value as [ | | | | | | |xs|d|items|n|r|nodes relationships| | | | ];
    try match goal with |- P ?x => exact (HLeaf x) end.
  - apply HList. induction xs as [|x xs IHxs]; constructor;
      [apply IH|exact IHxs].
  - apply HDict, Hitems.
  - apply HRecord, Hitems.
  - apply HNode. destruct n. apply Hitems.
  - apply HRel. destruct r. apply Hitems.
  - apply HPath.
    + induction nodes as [|n nodes IHn]; constructor; [|exact IHn].
      destruct n. apply Hitems.
    + induction relationships as [|r rs IHr]; constructor; [|exact IHr].
      destruct r. apply Hitems.
Qed.

Lemma Node_to_python_items (n : Node) :
  Node_to_python n
  = VDict [("id", VInt (Node_id n));
           ("labels", VList (map VStr (Node_labels n)));
           ("properties",
            VDict (Dict.comprehension to_python (Node_items n)))].
Proof. destruct n. reflexivity. Qed.

Lemma Relationship_to_python_items (r : Relationship) :
  Relationship_to_python r
  = VDict [("id", VInt (Relationship_id r));
           ("type", VStr (Relationship_type r));
           ("start_node", VInt (Node_id (Relationship_start_node r)));
           ("end_node", VInt (Node_id (Relationship_end_node r)));
           ("properties",
            VDict (Dict.comprehension to_python (Relationship_items r)))].
Proof. destruct r. reflexivity. Qed.

Lemma map_to_python_VStr (labels : list string) :
  map to_python (map VStr labels) = map VStr labels.
Proof. rewrite map_map. now apply map_ext. Qed.

Lemma map_fixed {A} (g : A -> object) (h : object -> object) (xs : list A) :
  Forall (fun x => h (g x) = g x) xs -> map h (map g xs) = map g xs.
Proof.
  intros H. rewrite map_map. induction H as [|x xs Hx _ IH]; cbn [map];
    [reflexivity|]. now rewrite Hx, IH.
Qed.

Section Twice.

Local Abbreviation twice :=
  (fun value => to_python (to_python value) = to_python value).

Lemma Node_to_python_twice (n : Node) :
  Node_all twice n -> to_python (Node_to_python n) = Node_to_python n.
Proof.
  intros H. rewrite Node_to_python_items.
  change (VDict [("id", VInt (Node_id n));
                 ("labels",
                  VList (map to_python (map VStr (Node_labels n))));
                 ("properties",
                  VDict (Dict.comprehension to_python
                           (Dict.comprehension to_python (Node_items n))))]
          = VDict [("id", VInt (Node_id n));
                   ("labels", VList (map VStr (Node_labels n)));
                   ("properties",
                    VDict (Dict.comprehension to_python (Node_items n)))]).
  now rewrite map_to_python_VStr, comprehension_twice.
Qed.

Lemma Relationship_to_python_twice (r : Relationship) :
  Relationship_all twice r ->
  to_python (Relationship_to_python r) = Relationship_to_python r.
Proof.
  intros H. rewrite Relationship_to_python_items.
  change (VDict [("id", VInt (Relationship_id r));
                 ("type", VStr (Relationship_type r));
                 ("start_node", VInt (Node_id (Relationship_start_node r)));
                 ("end_node", VInt (Node_id (Relationship_end_node r)));
                 ("properties",
                  VDict (Dict.comprehension to_python
                           (Dict.comprehension to_python
                              (Relationship_items r))))]
          = VDict [("id", VInt (Relationship_id r));
                   ("type", VStr (Relationship_type r));
                   ("start_node",
                    VInt (Node_id (Relationship_start_node r)));
                   ("end_node", VInt (Node_id (Relationship_end_node r)));
                   ("properties",
                    VDict (Dict.comprehension to_python
                             (Relationship_items r)))]).
  now rewrite comprehension_twice.
Qed.

End Twice.

(** Converting a converted value changes nothing, whatever the value: a
    record with a repeated column, a tuple or an unknown object included. *)
Theorem to_python_twice (value : object) :
  to_python (to_python value) = to_python value.
Proof.
  revert value.
  apply (object_traversal_ind
           (fun value => to_python (to_python value) = to_python value)).
  - intros value. destruct value; try exact I; reflexivity.
  - intros xs H. cbn [to_python]. f_equal. now apply map_fixed.
  - intros d H. cbn [to_python]. f_equal. now apply comprehension_twice.
  - intros items H. cbn [to_python]. f_equal. now apply comprehension_twice.
  - intros n H. now apply Node_to_python_twice.
  - intros r H. now apply Relationship_to_python_twice.
  - intros nodes relationships Hn Hr.
    change (VDict
              [("nodes",
                VList (map to_python (map Node_to_python nodes)));
               ("relationships",
                VList (map to_python
                         (map Relationship_to_python relationships)))]
            = VDict
                [("nodes", VList (map Node_to_python nodes));
                 ("relationships",
                  VList (map Relationship_to_python relationships))]).
    rewrite !map_fixed; [reflexivity| |].
    + eapply Forall_impl; [|exact Hr].
      intros r. apply Relationship_to_python_twice.
    + eapply Forall_impl; [|exact Hn].
      intros n. apply Node_to_python_twice.
Qed.

Section Normalizes.

Local Abbreviation normalizes :=
  (fun value =>
     convertible value = true -> normalized (to_python value) = true).

Lemma normalized_properties (d : Dict.t) :
  Forall (fun kv => normalizes (snd kv)) d ->
  forallb (fun kv => convertible (snd kv)) d = true ->
  normalized (VDict (Dict.comprehension to_python d)) = true.
Proof.
  intros IH Hc. cbn [normalized].
  rewrite comprehension_distinct_keys. cbn [andb].
  apply forallb_forall, Forall_forall.
  apply (comprehension_Forall to_python (fun v => normalized v = true)).
  rewrite forallb_forall in Hc. rewrite Forall_forall in IH |- *.
  intros kv Hin. apply (IH kv Hin), Hc, Hin.
Qed.

Lemma normalized_labels (labels : list string) :
  normalized (VList (map VStr labels)) = true.
Proof.
  cbn [normalized]. induction labels as [|l labels IH]; [reflexivity|].
  exact IH.
Qed.

Lemma normalized_map {A} (g : A -> object) (c : A -> bool) (xs : list A) :
  Forall (fun x => c x = true -> normalized (g x) = true) xs ->
  forallb c xs = true ->
  normalized (VList (map g xs)) = true.
Proof.
  cbn [normalized]. intros H. induction H as [|x xs Hx _ IH];
    cbn [map forallb]; [reflexivity|].
  intros Hc. apply andb_true_iff in Hc. destruct Hc as [Hcx Hcxs].
  now rewrite (Hx Hcx), (IH Hcxs).
Qed.

Lemma Node_to_python_normalized (n : Node) :
  Node_all normalizes n ->
  Node_convertible n = true -> normalized (Node_to_python n) = true.
Proof.
  intros IH Hc. rewrite Node_to_python_items.
  assert (normalized (VDict (Dict.comprehension to_python (Node_items n)))
          = true) as Hp.
  { apply normalized_properties; [exact IH|]. now destruct n. }
  pose proof (normalized_labels (Node_labels n)) as Hl.
  cbn [normalized forallb snd] in Hp, Hl |- *.
  now rewrite Hp, Hl.
Qed.

Lemma Relationship_to_python_normalized (r : Relationship) :
  Relationship_all normalizes r ->
  Relationship_convertible r = true ->
  normalized (Relationship_to_python r) = true.
Proof.
  intros IH Hc. rewrite Relationship_to_python_items.
  assert (normalized
            (VDict (Dict.comprehension to_python (Relationship_items r)))
          = true) as Hp.
  { apply normalized_properties; [exact IH|]. now destruct r. }
  cbn [normalized forallb snd] in Hp |- *.
  now rewrite Hp.
Qed.

End Normalizes.

(** A value made only of what the converter handles comes out normalised:
    primitives, lists and dicts with distinct keys, all the way down; no
    record, graph or temporal object is left in it. *)
Theorem to_python_normalizes (value : object) :
  convertible value = true -> normalized (to_python value) = true.
Proof.
  revert value.
  apply (object_traversal_ind
           (fun value =>
              convertible value = true ->
              normalized (to_python value) = true)).
  - intros value. destruct value; try exact I;
      try reflexivity; discriminate.
  - intros xs IH Hc. cbn [to_python]. now apply (normalized_map _ convertible).
  - intros d IH Hc. now apply normalized_properties.
  - intros items IH Hc. now apply normalized_properties.
  - intros n IH Hc. now apply Node_to_python_normalized.
  - intros r IH Hc. now apply Relationship_to_python_normalized.
  - intros nodes relationships IHn IHr Hc.
    cbn [convertible] in Hc. apply andb_true_iff in Hc.
    destruct Hc as [Hn Hr].
    assert (normalized (VList (map Node_to_python nodes)) = true) as Hns.
    { apply (normalized_map _ Node_convertible); [|exact Hn].
      eapply Forall_impl; [|exact IHn].
      intros n. apply Node_to_python_normalized. }
    assert (normalized (VList (map Relationship_to_python relationships))
            = true) as Hrs.
    { apply (normalized_map _ Relationship_convertible); [|exact Hr].
      eapply Forall_impl; [|exact IHr].
      intros r. apply Relationship_to_python_normalized. }
    change (to_python (VPath nodes relationships))
      with (VDict [("nodes", VList (map Node_to_python nodes));
                   ("relationships",
                    VList (map Relationship_to_python relationships))]).
    cbn [normalized forallb snd] in Hns, Hrs |- *.
    now rewrite Hns, Hrs.
Qed.

Lemma to_python_normalizes_witness :
  convertible
    (VRecord [("p", VPath [Script.ann; Script.bob] [Script.knows]);
              ("since", VDate "2020-01-01")]) = true /\
  normalized
    (to_python
       (VRecord [("p", VPath [Script.ann; Script.bob] [Script.knows]);
                 ("since", VDate "2020-01-01")])) = true.
Proof.
  split; [reflexivity|].
  apply (to_python_normalizes
           (VRecord [("p", VPath [Script.ann; Script.bob] [Script.knows]);
                     ("since", VDate "2020-01-01")])).
  reflexivity.
Defined.

(** Whatever the items of a record or dict, the converter returns a dict
    with one entry per key, and a key gives the conversion of the value the
    last item of that key holds: a repeated column keeps its last value. *)
Theorem to_python_last_item_wins (items : list (string * object)) :
  exists d,
    to_python (VRecord items) = VDict d /\
    to_python (VDict items) = VDict d /\
    distinct_keys d = true /\
    forall k, Dict.get k d = option_map to_python (Dict.get k (rev items)).
Proof.
  exists (Dict.comprehension to_python items).
  split; [reflexivity|]. split; [reflexivity|].
  split; [apply comprehension_distinct_keys|].
  intros k. unfold Dict.comprehension. rewrite get_fold_store.
  now destruct (Dict.get k (rev items)).
Qed.

(** On a dict (or a record with distinct column names) the converter keeps
    the keys, in their order, and converts the value under each key. *)
Theorem to_python_keeps_keys (items : list (string * object)) :
  distinct_keys items = true ->
  exists d,
    to_python (VDict items) = VDict d /\
    to_python (VRecord items) = VDict d /\
    Dict.keys d = Dict.keys items /\
    List.length d = List.length items /\
    forall k, Dict.get k d = option_map to_python (Dict.get k items).
Proof.
  intros H. exists (Dict.comprehension to_python items).
  split; [reflexivity|]. split; [reflexivity|].
  rewrite comprehension_distinct by exact H.
  split; [|split].
  - unfold Dict.keys. rewrite map_map. now apply map_ext.
  - apply length_map.
  - intros k. apply get_map_values.
Qed.

Lemma to_python_keeps_keys_witness :
  exists d,
    to_python (VDict [("born", VDate "1990-05-17"); ("name", VStr "Ann")])
    = VDict d /\
    to_python (VRecord [("born", VDate "1990-05-17"); ("name", VStr "Ann")])
    = VDict d /\
    Dict.keys d = ["born"; "name"] /\
    List.length d = 2%nat /\
    forall k,
      Dict.get k d
      = option_map to_python
          (Dict.get k [("born", VDate "1990-05-17"); ("name", VStr "Ann")]).
Proof.
  apply (to_python_keeps_keys
           [("born", VDate "1990-05-17"); ("name", VStr "Ann")]).
  reflexivity.
Defined.

(** ** More on envelopes *)

(** Whatever the key, [tool_success] stores the result under it; the
    envelope has the two keys ["status"] and the given one, or the single key
    ["status"] when that is the key given. *)
Theorem tool_success_lookup (key : string) (result : object) :
  envelope_get key (tool_success key result) = Some result /\
  exists d,
    tool_success key result = VDict d /\
    Dict.keys d = if String.eqb key "status" then ["status"]
                  else ["status"; key].
Proof.
  unfold tool_success, Dict.display. cbn [fold_left fst snd Dict.set].
  destruct (String.eqb key "status") eqn:Hk.
  - split; [|eexists; split; reflexivity].
    cbn [envelope_get Dict.get]. now rewrite Hk.
  - split; [|eexists; split; reflexivity].
    cbn [envelope_get Dict.get]. now rewrite Hk, String.eqb_refl.
Qed.

(** ** More on the gateway *)

(** [send_query] raises in three cases only: the driver refuses the session;
    closing the session raises, which also replaces an envelope already
    built; or running the query or materialising its result raises something
    that does not derive from [Exception]. *)
Theorem send_query_raises_iff
        (drv : Driver) (self : Neo4jForADK) (cypher_query : string)
        (parameters : option Dict.t) (log : list event) (e : exn) :
  fst (send_query drv self cypher_query parameters log) = Raise e <->
  driver_session drv = Some e \/
  (driver_session drv = None /\ session_close drv = Some e) \/
  (driver_session drv = None /\ session_close drv = None /\
   is_Exception e = false /\
   (session_run drv cypher_query (or_empty parameters) (database_name self)
    = Raise e \/
    exists result,
      session_run drv cypher_query (or_empty parameters) (database_name self)
      = Return result /\
      eager_records result = Raise e)).
Proof.
  rewrite send_query_outcome. unfold guarded_outcome.
  destruct (driver_session drv) as [e1|] eqn:Hsession;
    [|destruct (session_close drv) as [e2|] eqn:Hclose;
      [|destruct (session_run drv cypher_query (or_empty parameters)
                   (database_name self)) as [result|e3] eqn:Hrun;
        [destruct (eager_records result) as [records|e3] eqn:Heager|];
        try destruct (is_Exception e3) eqn:He3]];
    (split;
     [ intros H; try discriminate H; injection H as <-; eauto 12
     | intros [H|[[H1 H2]|(H1 & H2 & H3 & [H4|(r & H4 & H5)])]];
       try discriminate; try congruence ]).
Qed.

(** A call makes one attempt: it runs the query once when it gets its
    session and not at all otherwise, materialises the result once when the
    run returned one, and never asks for another driver. *)
Theorem send_query_single_attempt
        (drv : Driver) (self : Neo4jForADK) (cypher_query : string)
        (parameters : option Dict.t) (log : list event) :
  exists events,
    snd (send_query drv self cypher_query parameters log) = log ++ events /\
    count_event is_QueryRun events = sessions_acquired drv /\
    count_event is_DriverRequested events = 0%nat /\
    count_event is_ResultMaterialized events
    = match driver_session drv,
            session_run drv cypher_query (or_empty parameters)
                        (database_name self) with
      | None, Return _ => 1%nat
      | _, _ => 0%nat
      end.
Proof.
  rewrite send_query_log. unfold sessions_acquired, session_events.
  destruct (driver_session drv) as [e|].
  - exists []. repeat split.
  - eexists. split; [reflexivity|].
    destruct (session_run drv cypher_query (or_empty parameters)
                (database_name self)); repeat split.
Qed.

(** When [send_query] returns, the status of the envelope tells what
    happened: it is ["success"] exactly when the query ran and its result
    materialised. *)
Theorem send_query_status_tells
        (drv : Driver) (self : Neo4jForADK) (cypher_query : string)
        (parameters : option Dict.t) (log : list event) (envelope : object) :
  fst (send_query drv self cypher_query parameters log) = Return envelope ->
  (envelope_get "status" envelope = Some (VStr "success") <->
   exists result records,
     session_run drv cypher_query (or_empty parameters) (database_name self)
     = Return result /\
     eager_records result = Return records) /\
  (envelope_get "status" envelope = Some (VStr "error") <->
   exists e,
     session_run drv cypher_query (or_empty parameters) (database_name self)
     = Raise e \/
     exists result,
       session_run drv cypher_query (or_empty parameters)
                   (database_name self) = Return result /\
       eager_records result = Raise e).
Proof.
  rewrite send_query_outcome. unfold guarded_outcome.
  destruct (driver_session drv); [discriminate|].
  destruct (session_close drv); [discriminate|].
  destruct (session_run drv cypher_query (or_empty parameters)
              (database_name self)) as [result|e].
  - destruct (eager_records result) as [records|e] eqn:Heager.
    + intros [= <-]. split; split.
      * intros _. now exists result, records.
      * reflexivity.
      * discriminate.
      * intros (e & [H|(r & [= <-] & H)]); [discriminate H|congruence].
    + destruct (is_Exception e); [|discriminate].
      intros [= <-]. split; split.
      * discriminate.
      * intros (r & records & [= <-] & H). congruence.
      * intros _. exists e. right. now exists result.
      * reflexivity.
  - destruct (is_Exception e); [|discriminate].
    intros [= <-]. split; split.
    + discriminate.
    + intros (r & records & H & _). discriminate H.
    + intros _. exists e. now left.
    + reflexivity.
Qed.

Lemma send_query_status_tells_witness :
  envelope_get "status"
    (VDict [("status", VStr "error");
            ("error_message", VStr "Invalid input")])
  = Some (VStr "error") <->
  exists e,
    session_run (Script.rejecting "Invalid input") "INVALID SYNTAX"
                (or_empty None) (database_name Script.graphdb) = Raise e \/
    exists result,
      session_run (Script.rejecting "Invalid input") "INVALID SYNTAX"
                  (or_empty None) (database_name Script.graphdb)
      = Return result /\
      eager_records result = Raise e.
Proof.
  apply (send_query_status_tells
           (Script.rejecting "Invalid input") Script.graphdb
           "INVALID SYNTAX" None []).
  reflexivity.
Defined.


